(** * The JSON configuration container of beego
    ([pkg/infrastructure/config/json/json.go])

    A shallow embedding of [JSONConfigContainer] and its methods, and the
    properties of its path walk, typed accessors, default variants,
    sub-extraction, section access, parser fallback, [Set] and
    [Unmarshaler], alone and in sequence. *)

From Stdlib Require Import ZArith Ascii String Floats.SpecFloat.
From stdpp Require Import base option list strings gmap fin_maps.

Set Warnings "-register-all".

Local Open Scope string_scope.
Local Open Scope Z_scope.

(** ** Values held by an [interface{}] *)

(** A Go [float64]: the IEEE 754 binary64 datum, as sign, mantissa and
    exponent ([S754_finite s m e] is [(-1)^s * m * 2^e]). *)
Definition float64 : Type := spec_float.

(** The dynamic values the root map can hold.  [encoding/json] decodes into
    [nil], [bool], [float64], [string], [[]interface{}] and
    [map[string]interface{}]; [map[string]string] is the one type
    [GetSection] asserts. *)
Inductive value : Type :=
  | VNil                                  (* nil interface (JSON null) *)
  | VBool (b : bool)
  | VNum (f : float64)
  | VStr (s : string)
  | VArr (l : list value)                 (* []interface{} *)
  | VMap (m : gmap string value)          (* map[string]interface{} *)
  | VStrMap (m : gmap string string).     (* map[string]string *)

(** [val != nil] *)
Definition is_nil (v : value) : bool :=
  match v with VNil => true | _ => false end.

(** [_, ok := v.(map[string]interface{})] *)
Definition is_map (v : value) : bool :=
  match v with VMap _ => true | _ => false end.

(** ** [strings.Split] at the two separators the file uses *)

(** [strings.Split(s, "::")]: the pieces between the leftmost,
    non-overlapping occurrences of ["::"]; one piece when there is none. *)
Fixpoint Split_colons (s : string) : list string :=
  match s with
  | EmptyString => [EmptyString]
  | String c s' =>
      let keep :=
        match Split_colons s' with
        | seg :: segs => String c seg :: segs
        | [] => [String c EmptyString]
        end in
      if Ascii.eqb c ":"%char then
        match s' with
        | String c' s'' =>
            if Ascii.eqb c' ":"%char then EmptyString :: Split_colons s'' else keep
        | EmptyString => keep
        end
      else keep
  end.

(** [strings.Split(s, ";")] *)
Fixpoint Split_semi (s : string) : list string :=
  match s with
  | EmptyString => [EmptyString]
  | String c s' =>
      if Ascii.eqb c ";"%char then EmptyString :: Split_semi s'
      else match Split_semi s' with
           | seg :: segs => String c seg :: segs
           | [] => [String c EmptyString]
           end
  end.

(** ** The container *)

(** [sync.RWMutex]: whether a writer holds it, and how many readers do. *)
Record RWMutex : Type := { writer : bool; readers : nat }.

Definition mu_free : RWMutex := {| writer := false; readers := 0 |}.

(** [JSONConfigContainer].  [data] is an allocated map: [ParseData] makes
    it before decoding and [Sub] hands over a decoded object.  A nil map,
    which reads as the empty map and which a store would fault on, is not
    told apart from it. *)
Record JSONConfigContainer : Type :=
  { data : gmap string value; mu : RWMutex }.

(** [&JSONConfigContainer{data: d}], with the zero mutex. *)
Definition new_container (d : gmap string value) : JSONConfigContainer :=
  {| data := d; mu := mu_free |}.

(** ** [getData] *)

(** The loop [for _, key := range sectionKeys[1:]] over [curValue]. *)
Fixpoint walk (curValue : value) (keys : list string) : value :=
  match keys with
  | [] => curValue
  | key :: keys' =>
      match curValue with
      | VMap v =>
          match v !! key with
          | Some cur' => walk cur' keys'
          | None => VNil
          end
      | _ => walk curValue keys'
      end
  end.

(** [getData(key)]; the result [VNil] is Go's [nil].  The read lock is taken
    and released around the walk ([RLock], [defer RUnlock]) and leaves the
    mutex as it found it, so the function is given on [data] alone. *)
Definition getData (c : JSONConfigContainer) (key : string) : value :=
  if (String.length key =? 0)%nat then VNil
  else
    let sectionKeys := Split_colons key in
    if (2 <=? length sectionKeys)%nat then
      match data c !! hd EmptyString sectionKeys with
      | None => VNil
      | Some curValue => walk curValue (tl sectionKeys)
      end
    else
      match data c !! key with
      | Some v => v
      | None => VNil
      end.

(** ** Errors and outcomes *)

(** Whether a [*strconv.NumError] wraps [ErrSyntax] or [ErrRange]. *)
Inductive num_err : Type := ErrSyntax | ErrRange.

(** Go [error] values, by the call that builds them. *)
Inductive error : Type :=
  | errors_New (text : string)
  | fmt_Errorf (format : string) (operand : string)
  | NumError (Func Num : string) (Err : num_err)
  | external_error (text : string).       (* of encoding/json or config *)

(** A Go result pair [(v, err)]; [None] is the [nil] error. *)
Definition result (A : Type) : Type := (A * option error)%type.

(** [err == nil] *)
Definition err_is_nil (err : option error) : bool :=
  match err with None => true | Some _ => false end.

(** A run-time panic. *)
Inductive panic : Type :=
  | interface_conversion (v : value)      (* a failed one-result assertion *)
  | unlock_of_unlocked.

(** How a call ends: it returns, it panics, or it waits on the mutex. *)
Inductive outcome (A : Type) : Type :=
  | Returns (a : A)
  | Panics (p : panic)
  | Blocks.
Arguments Returns {A} a.
Arguments Panics {A} p.
Arguments Blocks {A}.

(** ** [strconv.Atoi] and the conversion [int(v)] *)

(** [strconv.IntSize] on the 64-bit targets. *)
Definition intSize : Z := 64.
Definition maxInt : Z := 2 ^ (intSize - 1) - 1.
Definition minInt : Z := - 2 ^ (intSize - 1).

Definition digit_of (c : ascii) : option Z :=
  let n := Z.of_N (Ascii.N_of_ascii c) in
  if (48 <=? n) && (n <=? 57) then Some (n - 48) else None.

(** The digit loop [n = n*10 + d], failing at the first non-digit. *)
Fixpoint parse_digits (s : string) (n : Z) : option Z :=
  match s with
  | EmptyString => Some n
  | String ch s' =>
      match digit_of ch with
      | Some d => parse_digits s' (n * 10 + d)
      | None => None
      end
  end.

(** [strconv.Atoi(s)]: an optional sign and decimal digits; a syntax error
    gives [0], a range error gives the nearest bound. *)
Definition Atoi (s : string) : result Z :=
  let syntax := (0, Some (NumError "Atoi" s ErrSyntax)) in
  let range z := (z, Some (NumError "Atoi" s ErrRange)) in
  let '(neg, digits) :=
    match s with
    | String c r =>
        if Ascii.eqb c "-"%char then (true, r)
        else if Ascii.eqb c "+"%char then (false, r) else (false, s)
    | EmptyString => (false, s)
    end in
  match digits with
  | EmptyString => syntax
  | _ =>
      match parse_digits digits 0 with
      | None => syntax
      | Some un =>
          if neg then
            if - minInt <? un then range minInt else (- un, None)
          else
            if maxInt <? un then range maxInt else (un, None)
      end
  end.

(** The integer part of a finite [float64], toward zero. *)
Definition trunc (f : float64) : option Z :=
  match f with
  | S754_zero _ => Some 0
  | S754_finite s m e =>
      let a := Z.shiftl (Z.pos m) e in
      Some (if s then - a else a)
  | S754_infinity _ | S754_nan => None
  end.

Definition in_int_range (z : Z) : bool := (minInt <=? z) && (z <=? maxInt).

(** ** The methods of [JSONConfigContainer] *)

(** [String(ctx, key)]; the name carries an underscore because [String] is
    the constructor of Rocq strings. *)
Definition String_ (c : JSONConfigContainer) (key : string) : result string :=
  let val := getData c key in
  if negb (is_nil val) then
    match val with
    | VStr v => (v, None)
    | _ => (EmptyString, None)
    end
  else (EmptyString, None).


(** [Strings(ctx, key)]; a [[]string] is [None] when it is the nil slice. *)
Definition Strings (c : JSONConfigContainer) (key : string) : result (option (list string)) :=
  let '(stringVal, err) := String_ c key in
  if String.eqb stringVal EmptyString || negb (err_is_nil err) then (None, err)
  else (Some (Split_semi stringVal), None).


(** [DIY(ctx, key)] *)
Definition DIY (c : JSONConfigContainer) (key : string) : result value :=
  let val := getData c key in
  if negb (is_nil val) then (val, None)
  else (VNil, Some (errors_New "not exist key")).

(** [sub(ctx, key)]; the returned map is [None] when it is nil. *)
Definition sub (c : JSONConfigContainer) (key : string) : result (option (gmap string value)) :=
  if String.eqb key EmptyString then (Some (data c), None)
  else
    match data c !! key with
    | None => (None, Some (errors_New ("key is not found: " ++ key)))
    | Some value =>
        match value with
        | VMap res => (Some res, None)
        | _ => (None, Some (errors_New ("the type of value is invalid, key: " ++ key)))
        end
    end.

(** [Sub(ctx, key)]: a new container over the map [sub] returns. *)
Definition Sub (c : JSONConfigContainer) (key : string) : result (option JSONConfigContainer) :=
  match sub c key with
  | (_, Some err) => (None, Some err)
  | (Some m, None) => (Some (new_container m), None)
  | (None, None) => (Some (new_container ∅), None)   (* a nil map reads as the empty one *)
  end.

(** [GetSection(ctx, section)]: [v.(map[string]string)] is the one-result
    assertion, which panics on any other dynamic type. *)
Definition GetSection (c : JSONConfigContainer) (section : string)
    : outcome (result (option (gmap string string))) :=
  match data c !! section with
  | Some v =>
      match v with
      | VStrMap m => Returns (Some m, None)
      | _ => Panics (interface_conversion v)
      end
  | None => Returns (None, Some (errors_New ("nonexist section " ++ section)))
  end.

(** [c.Lock()]: granted when no writer and no reader holds the mutex;
    [None] when the caller has to wait. *)
Definition Lock (m : RWMutex) : option RWMutex :=
  if negb (writer m) && (readers m =? 0)%nat
  then Some {| writer := true; readers := readers m |}
  else None.

(** [c.Unlock()]: releases the writer; [None] is the panic of unlocking a
    mutex no writer holds. *)
Definition Unlock (m : RWMutex) : option RWMutex :=
  if writer m then Some {| writer := false; readers := readers m |} else None.

(** [Set(ctx, key, val)], with the container after the call.  The name
    carries an underscore because [Set] is a sort of Rocq. *)
Definition Set_ (c : JSONConfigContainer) (key val : string)
    : outcome (JSONConfigContainer * option error) :=
  match Lock (mu c) with
  | None => Blocks
  | Some held =>
      let c1 := {| data := <[key := VStr val]> (data c); mu := held |} in
      match Unlock (mu c1) with
      | None => Panics unlock_of_unlocked
      | Some released => Returns ({| data := data c1; mu := released |}, None)
      end
  end.

Section Accessors.

(** [config.ParseBool], of the [config] package. *)
Variable ParseBool : value → result bool.

(** The result of [int(v)] and [int64(v)] when [v] is NaN, infinite or
    beyond the integer range: the language leaves it to the
    implementation. *)
Variable conv_unrepresentable : float64 → Z.

(** The conversions [int(v)] and [int64(v)] of a [float64]. *)
Definition float64_to_int (v : float64) : Z :=
  match trunc v with
  | Some z => if in_int_range z then z else conv_unrepresentable v
  | None => conv_unrepresentable v
  end.

(** [Bool(ctx, key)] *)
Definition Bool (c : JSONConfigContainer) (key : string) : result bool :=
  let val := getData c key in
  if negb (is_nil val) then ParseBool val
  else (false, Some (fmt_Errorf "not exist key: %q" key)).


(** [Int(ctx, key)] *)
Definition Int (c : JSONConfigContainer) (key : string) : result Z :=
  let val := getData c key in
  if negb (is_nil val) then
    match val with
    | VNum v => (float64_to_int v, None)
    | VStr v => Atoi v
    | _ => (0, Some (errors_New "not valid value"))
    end
  else (0, Some (errors_New ("not exist key:" ++ key))).


(** [Int64(ctx, key)] *)
Definition Int64 (c : JSONConfigContainer) (key : string) : result Z :=
  let val := getData c key in
  if negb (is_nil val) then
    match val with
    | VNum v => (float64_to_int v, None)
    | _ => (0, Some (errors_New "not int64 value"))
    end
  else (0, Some (errors_New ("not exist key:" ++ key))).


(** [Float(ctx, key)] *)
Definition Float (c : JSONConfigContainer) (key : string) : result float64 :=
  let val := getData c key in
  if negb (is_nil val) then
    match val with
    | VNum v => (v, None)
    | _ => (S754_zero false, Some (errors_New "not float64 value"))
    end
  else (S754_zero false, Some (errors_New ("not exist key:" ++ key))).


End Accessors.

(** Modelled from the spec: [config.ParseBool], of the [config] package, is
    not in this file.  The boolean-representation parser takes native
    booleans and the token spellings ["1"], ["t"], ["true"], ["TRUE"] and
    ["0"], ["f"], ["false"], ["FALSE"], and rejects everything else with a
    parse error. *)
Definition ParseBool_spec (val : value) : result bool :=
  match val with
  | VBool b => (b, None)
  | VStr s =>
      if existsb (String.eqb s) ["1"; "t"; "true"; "TRUE"] then (true, None)
      else if existsb (String.eqb s) ["0"; "f"; "false"; "FALSE"] then (false, None)
      else (false, Some (external_error "ParseBool: invalid syntax"))
  | _ => (false, Some (external_error "ParseBool: invalid syntax"))
  end.

(** ** [ParseData] *)

Section Parser.

(** [json.Unmarshal(data, &m)] into a map [m]: the decoder stores into the
    map it is given and reports an error or [nil]; the pair is the map
    after the call and the error. *)
Variable Unmarshal_map : list Byte.byte → gmap string value → result (gmap string value).

(** [json.Unmarshal(data, &a)] into a fresh [[]interface{}]. *)
Variable Unmarshal_slice : list Byte.byte → result (list value).

(** [config.ExpandValueEnvForMap], of the [config] package: it depends on
    the environment of the process. *)
Variable ExpandValueEnvForMap : gmap string value → gmap string value.

(** [ParseData(data)] *)
Definition ParseData (bytes : list Byte.byte) : result (option JSONConfigContainer) :=
  let x := new_container ∅ in
  let '(d, err) := Unmarshal_map bytes (data x) in
  match err with
  | Some _ =>
      let '(wrappingArray, err2) := Unmarshal_slice bytes in
      match err2 with
      | Some _ => (None, err)
      | None =>
          let d' := <["rootArray" := VArr wrappingArray]> d in
          (Some {| data := ExpandValueEnvForMap d'; mu := mu x |}, None)
      end
  | None => (Some {| data := ExpandValueEnvForMap d; mu := mu x |}, None)
  end.

End Parser.

(** ** The specification's notions *)

(** The path walk over the remaining segments as the specification words
    it: descend through a mapping, stop with not-found at an absent segment,
    keep the value at hand when it is not a mapping. *)
Inductive walk_spec : value → list string → value → Prop :=
  | walk_end cur :
      walk_spec cur [] cur
  | walk_descend m seg child rest r :
      m !! seg = Some child → walk_spec child rest r →
      walk_spec (VMap m) (seg :: rest) r
  | walk_absent m seg rest :
      m !! seg = None →
      walk_spec (VMap m) (seg :: rest) VNil
  | walk_keep cur seg rest r :
      is_map cur = false → walk_spec cur rest r →
      walk_spec cur (seg :: rest) r.

(** [v] is stored in the tree under the path of segments: every segment
    but the last names a mapping, the last names [v]. *)
Inductive stored_at : gmap string value → list string → value → Prop :=
  | stored_here m seg v :
      m !! seg = Some v → stored_at m [seg] v
  | stored_under m seg m' rest v :
      m !! seg = Some (VMap m') → stored_at m' rest v →
      stored_at m (seg :: rest) v.

(** No entry exists under the path: a segment is missing from the mapping
    the segments before it lead to. *)
Inductive absent_at : gmap string value → list string → Prop :=
  | absent_here m seg rest :
      m !! seg = None → absent_at m (seg :: rest)
  | absent_under m seg m' rest :
      m !! seg = Some (VMap m') → absent_at m' rest →
      absent_at m (seg :: rest).

(** What the typed accessors, the raw accessor and the string accessor
    return for one key. *)
Definition observe (ParseBool : value → result bool) (conv : float64 → Z)
    (c : JSONConfigContainer) (key : string) :=
  (Bool ParseBool c key, Int conv c key, Int64 conv c key, Float c key,
   DIY c key, String_ c key).


(** ** [Unmarshaler] *)

Section Decoder.

(** The type of the object [obj] points to. *)
Variable target : Type.

(** [mapstructure.Decode(input, output)], of the [mapstructure] library:
    the object after the call and the error. *)
Variable mapstructure_Decode : gmap string value → target → target * option error.

(** [Unmarshaler(ctx, prefix, obj, opt...)], with the object after the call. *)
Definition Unmarshaler (c : JSONConfigContainer) (prefix : string) (obj : target)
    : target * option error :=
  match sub c prefix with
  | (_, Some err) => (obj, Some err)
  | (Some m, None) => mapstructure_Decode m obj
  | (None, None) => mapstructure_Decode ∅ obj
  end.

End Decoder.

(** ** Notions used to state properties *)

(** [strings.Join(l, sep)] *)
Fixpoint join (sep : string) (l : list string) : string :=
  match l with
  | [] => EmptyString
  | x :: l' =>
      match l' with
      | [] => x
      | _ :: _ => x ++ sep ++ join sep l'
      end
  end.

(** Whether the byte [ch] occurs in [s]. *)
Fixpoint contains_char (ch : ascii) (s : string) : bool :=
  match s with
  | EmptyString => false
  | String c s' => Ascii.eqb c ch || contains_char ch s'
  end.

(** A byte put in front of the first of a list of pieces. *)
Definition push_char (c : ascii) (l : list string) : list string :=
  match l with
  | seg :: segs => String c seg :: segs
  | [] => [String c EmptyString]
  end.

(** Whether [s] starts with the byte [ch]. *)
Definition starts_with (ch : ascii) (s : string) : bool :=
  match s with
  | String c _ => Ascii.eqb c ch
  | EmptyString => false
  end.

Example split_abc : Split_colons "a::b::c" = ["a"; "b"; "c"].
Proof. reflexivity. Qed.

Example split_odd : Split_colons "a:::b" = ["a"; ":b"].
Proof. reflexivity. Qed.

Example split_empty : Split_colons "" = [""].
Proof. reflexivity. Qed.

Example split_doubled : Split_colons "a::::b" = ["a"; ""; "b"].
Proof. reflexivity. Qed.

Example split_single_colon : Split_colons "a:b" = ["a:b"].
Proof. reflexivity. Qed.

Example split_semi_abc : Split_semi "a;b;c" = ["a"; "b"; "c"].
Proof. reflexivity. Qed.

Example atoi_5 : Atoi "5" = (5, None).
Proof. reflexivity. Qed.

Example atoi_neg : Atoi "-12" = (-12, None).
Proof. reflexivity. Qed.

Example atoi_bad : Atoi "1x" = (0, Some (NumError "Atoi" "1x" ErrSyntax)).
Proof. reflexivity. Qed.

Example atoi_big : Atoi "9223372036854775808" = (maxInt, Some (NumError "Atoi" "9223372036854775808" ErrRange)).
Proof. reflexivity. Qed.

Example trunc_ex : trunc (S754_finite true 7 (-1)) = Some (-3).
Proof. reflexivity. Qed.

Example getData_ex :
  getData (new_container {[ "a" := VMap {[ "b" := VStr "x" ]} ]}) "a::b::c" = VStr "x".
Proof. vm_compute. reflexivity. Qed.

(** ** Lemmas on [Split_colons] and [walk] *)

Lemma Split_colons_nonempty (s : string) : Split_colons s ≠ [].
Proof.
  destruct s as [|c s']; simpl; [discriminate|].
  destruct (Ascii.eqb c ":"); [destruct s' as [|c' s'']|].
  all: try destruct (Ascii.eqb c' ":"); try discriminate.
  all: destruct (Split_colons _); discriminate.
Qed.

(** A key without the delimiter is its own single segment. *)
Lemma Split_colons_single (s x : string) : Split_colons s = [x] → x = s.
Proof.
  revert x. induction s as [|c s' IH]; intros x; simpl.
  - congruence.
  - assert (Hkeep : match Split_colons s' with
                    | seg :: segs => String c seg :: segs
                    | [] => [String c EmptyString]
                    end = [x] → x = String c s').
    { destruct (Split_colons s') as [|seg segs] eqn:E.
      - by destruct (Split_colons_nonempty s').
      - intros [= <- ->]. by rewrite (IH seg). }
    destruct (Ascii.eqb c ":"); [|done].
    destruct s' as [|c' s'']; [done|].
    destruct (Ascii.eqb c' ":"); [|done].
    intros [= <- H]. by destruct (Split_colons_nonempty s'').
Qed.

Lemma walk_nil_value (keys : list string) : walk VNil keys = VNil.
Proof. induction keys; simpl; auto. Qed.

Lemma walk_not_map (cur : value) (keys : list string) :
  is_map cur = false → walk cur keys = cur.
Proof.
  intros H. induction keys as [|k keys IH]; simpl; [done|].
  destruct cur; try done.
Qed.

Lemma walk_app (cur : value) (l1 l2 : list string) :
  walk cur (l1 ++ l2) = walk (walk cur l1) l2.
Proof.
  revert cur. induction l1 as [|k l1 IH]; intros cur; simpl; [done|].
  destruct cur; try apply IH.
  destruct (m !! k); [apply IH|]. by rewrite walk_nil_value.
Qed.

Lemma walk_sound (cur : value) (keys : list string) :
  walk_spec cur keys (walk cur keys).
Proof.
  revert cur. induction keys as [|k keys IH]; intros cur; simpl.
  - constructor.
  - destruct cur; try (by apply walk_keep).
    destruct (m !! k) eqn:E.
    + by eapply walk_descend.
    + by apply walk_absent.
Qed.

Lemma walk_complete (cur : value) (keys : list string) (r : value) :
  walk_spec cur keys r → walk cur keys = r.
Proof.
  induction 1 as [cur|m seg child rest r Hl _ IH|m seg rest Hl|cur seg rest r Hm _ IH]; simpl.
  - done.
  - by rewrite Hl.
  - by rewrite Hl.
  - by destruct cur.
Qed.

(** [getData] by the segments of a non-empty key. *)
Lemma getData_segments (c : JSONConfigContainer) (key : string) :
  key ≠ EmptyString →
  getData c key =
    match Split_colons key with
    | first :: rest =>
        match data c !! first with
        | Some cur => walk cur rest
        | None => VNil
        end
    | [] => VNil
    end.
Proof.
  intros Hne. unfold getData.
  destruct key as [|ch key']; [done|].
  change (String.length (String ch key') =? 0)%nat with false. cbv iota.
  destruct (Split_colons (String ch key')) as [|first [|second rest]] eqn:E.
  - by destruct (Split_colons_nonempty (String ch key')).
  - apply Split_colons_single in E as ->. simpl.
    by destruct (data c !! String ch key').
  - done.
Qed.

Lemma getData_empty (c : JSONConfigContainer) : getData c EmptyString = VNil.
Proof. done. Qed.

(** ** The path walk *)

(** Concrete trees used below. *)
Lemma getData_depth3 :
  getData (new_container {[ "a" := VMap {[ "b" := VMap {[ "c" := VNum (S754_finite false 3 0) ]} ]} ]})
    "a::b::c" = VNum (S754_finite false 3 0).
Proof. vm_compute. reflexivity. Qed.

Lemma getData_short_circuit :
  getData (new_container {[ "a" := VMap {[ "b" := VMap {[ "c" := VStr "x" ]} ]} ]})
    "a::z::c" = VNil.
Proof. vm_compute. reflexivity. Qed.

(** C1: for a key of two or more segments whose first segment is in the
    root mapping, [getData] is the walk of the specification over the
    remaining segments (descend through a mapping, not-found at once at an
    absent segment, keep the value when it is not a mapping); and a key
    that adds one segment to such a key resolving to a non-mapping gets the
    same value, which the raw accessor returns without error. *)
Theorem getData_walks_leniently (c : JSONConfigContainer) (key first : string)
    (rest : list string) (cur : value) :
  Split_colons key = first :: rest →
  rest ≠ [] →
  data c !! first = Some cur →
  (∀ r, getData c key = r ↔ walk_spec cur rest r) ∧
  (∀ key' seg,
     Split_colons key' = (Split_colons key ++ [seg])%list →
     is_map (getData c key) = false →
     getData c key' = getData c key ∧
     (getData c key ≠ VNil → DIY c key' = (getData c key, None))).
Proof.
  intros Hsplit Hrest Hfirst.
  assert (Hkey : key ≠ EmptyString).
  { intros ->. simpl in Hsplit. destruct rest; congruence. }
  assert (Hget : getData c key = walk cur rest).
  { by rewrite getData_segments, Hsplit, Hfirst. }
  split.
  - intros r. rewrite Hget. split.
    + intros <-. apply walk_sound.
    + apply walk_complete.
  - intros key' seg Hsplit' Hleaf.
    assert (Hkey' : key' ≠ EmptyString).
    { intros ->. rewrite Hsplit in Hsplit'. simpl in Hsplit'.
      destruct rest; simplify_eq. }
    assert (Hget' : getData c key' = getData c key).
    { rewrite (getData_segments c key') by done.
      rewrite Hsplit', Hsplit. simpl. rewrite Hfirst, walk_app, <- Hget.
      by apply walk_not_map. }
    split; [done|].
    intros Hnil. unfold DIY. rewrite Hget'.
    by destruct (getData c key).
Qed.

Lemma getData_walks_leniently_witness :
  getData (new_container {[ "a" := VMap {[ "b" := VStr "x" ]} ]}) "a::b::c" = VStr "x" ∧
  DIY (new_container {[ "a" := VMap {[ "b" := VStr "x" ]} ]}) "a::b::c" = (VStr "x", None).
Proof.
  destruct (getData_walks_leniently
              (new_container {[ "a" := VMap {[ "b" := VStr "x" ]} ]})
              "a::b" "a" ["b"] (VMap {[ "b" := VStr "x" ]})) as [_ H].
  - reflexivity.
  - discriminate.
  - vm_compute. reflexivity.
  - destruct (H "a::b::c" "c") as [H1 H2].
    + reflexivity.
    + vm_compute. reflexivity.
    + split.
      * rewrite H1. vm_compute. reflexivity.
      * rewrite H2.
        -- f_equal.
        -- vm_compute. discriminate.
Defined.

(** ** Section access *)

(** [GetSection] returns the child exactly when it is a
    [map[string]string]; an absent section is an error value. *)
Lemma GetSection_string_map (c : JSONConfigContainer) (section : string)
    (m : gmap string string) :
  data c !! section = Some (VStrMap m) →
  GetSection c section = Returns (Some m, None).
Proof. intros H. unfold GetSection. by rewrite H. Qed.

Lemma GetSection_absent (c : JSONConfigContainer) (section : string) :
  data c !! section = None →
  GetSection c section
  = Returns (None, Some (errors_New ("nonexist section " ++ section))).
Proof. intros H. unfold GetSection. by rewrite H. Qed.

(** A child of any other dynamic type makes the assertion panic. *)
Lemma GetSection_other_shape (c : JSONConfigContainer) (section : string) (v : value) :
  data c !! section = Some v →
  (∀ m, v ≠ VStrMap m) →
  GetSection c section = Panics (interface_conversion v).
Proof.
  intros H Hv. unfold GetSection. rewrite H.
  destruct v; try done. by destruct (Hv m).
Qed.

(** C2: on the container decoded from [{"s": {"a": "b"}}], whose child
    ["s"] is a [map[string]interface{}], [GetSection "s"] panics with a
    failed interface conversion instead of returning an error value. *)
Theorem GetSection_panics_on_decoded_object :
  GetSection (new_container {[ "s" := VMap {[ "a" := VStr "b" ]} ]}) "s"
  = Panics (interface_conversion (VMap {[ "a" := VStr "b" ]})).
Proof. vm_compute. reflexivity. Qed.

(** ** Sub-extraction *)

(** C3, as stated, fails: ["a::b"] resolves by the path walk to a nested
    mapping, and [Sub] reports the key as not found. *)
Lemma Sub_does_not_walk :
  getData (new_container {[ "a" := VMap {[ "b" := VMap {[ "x" := VStr "1" ]} ]} ]}) "a::b"
  = VMap {[ "x" := VStr "1" ]} ∧
  Sub (new_container {[ "a" := VMap {[ "b" := VMap {[ "x" := VStr "1" ]} ]} ]}) "a::b"
  = (None, Some (errors_New "key is not found: a::b")).
Proof. split; vm_compute; reflexivity. Qed.

(** C3, amended: [Sub] looks the key up as one literal direct child of the
    root, without splitting it at ["::"]: the empty key gives a container
    over the whole root, an absent key the not-found error, a child that is
    not a mapping the type error, a child that is a mapping a container
    over it. *)
Theorem Sub_literal_key (c : JSONConfigContainer) (key : string) :
  (key = EmptyString → Sub c key = (Some (new_container (data c)), None)) ∧
  (key ≠ EmptyString → data c !! key = None →
     Sub c key = (None, Some (errors_New ("key is not found: " ++ key)))) ∧
  (key ≠ EmptyString → ∀ v, data c !! key = Some v → is_map v = false →
     Sub c key = (None, Some (errors_New ("the type of value is invalid, key: " ++ key)))) ∧
  (key ≠ EmptyString → ∀ m, data c !! key = Some (VMap m) →
     Sub c key = (Some (new_container m), None)).
Proof.
  unfold Sub, sub. destruct (String.eqb_spec key EmptyString) as [->|Hne].
  - repeat split; done.
  - split; [done|]. split; [by intros _ ->|]. split.
    + intros _ v -> Hv. by destruct v.
    + by intros _ m ->.
Qed.

Lemma Sub_literal_key_witness :
  Sub (new_container {[ "a" := VMap {[ "b" := VStr "1" ]}; "n" := VNum (S754_zero false) ]}) "a"
  = (Some (new_container {[ "b" := VStr "1" ]}), None) ∧
  Sub (new_container {[ "a" := VMap {[ "b" := VStr "1" ]}; "n" := VNum (S754_zero false) ]}) "a::b"
  = (None, Some (errors_New "key is not found: a::b")) ∧
  Sub (new_container {[ "a" := VMap {[ "b" := VStr "1" ]}; "n" := VNum (S754_zero false) ]}) "n"
  = (None, Some (errors_New "the type of value is invalid, key: n")).
Proof.
  split; [|split].
  - apply (Sub_literal_key _ "a"); [discriminate|]. vm_compute. reflexivity.
  - apply (Sub_literal_key _ "a::b"); [discriminate|]. vm_compute. reflexivity.
  - apply (proj1 (proj2 (proj2 (Sub_literal_key _ "n")))) with (v := VNum (S754_zero false)).
    + discriminate.
    + vm_compute. reflexivity.
    + reflexivity.
Defined.

(** A literal top-level key that contains the delimiter is found by [Sub]. *)
Lemma Sub_literal_delimiter :
  Sub (new_container {[ "a::b" := VMap {[ "x" := VStr "1" ]} ]}) "a::b"
  = (Some (new_container {[ "x" := VStr "1" ]}), None).
Proof. vm_compute. reflexivity. Qed.

(** ** The empty key *)

(** C4, as stated, fails: the raw accessor does not return the root
    mapping for the empty key, it reports the key as not existing. *)
Lemma DIY_empty_key_not_root :
  DIY (new_container {[ "a" := VStr "1" ]}) EmptyString
  = (VNil, Some (errors_New "not exist key")) ∧
  DIY (new_container {[ "a" := VStr "1" ]}) EmptyString
  ≠ (VMap {[ "a" := VStr "1" ]}, None).
Proof. split; [reflexivity | discriminate]. Qed.

(** C4, amended: the empty key addresses the root for sub-tree extraction
    only; [getData] resolves it to nothing, so the raw and the typed
    accessors report not-found and the string accessor returns the empty
    string without error. *)
Theorem empty_key_root_only_for_Sub (ParseBool : value → result bool)
    (conv : float64 → Z) (c : JSONConfigContainer) :
  sub c EmptyString = (Some (data c), None) ∧
  Sub c EmptyString = (Some (new_container (data c)), None) ∧
  getData c EmptyString = VNil ∧
  DIY c EmptyString = (VNil, Some (errors_New "not exist key")) ∧
  Bool ParseBool c EmptyString = (false, Some (fmt_Errorf "not exist key: %q" EmptyString)) ∧
  Int conv c EmptyString = (0, Some (errors_New "not exist key:")) ∧
  Int64 conv c EmptyString = (0, Some (errors_New "not exist key:")) ∧
  Float c EmptyString = (S754_zero false, Some (errors_New "not exist key:")) ∧
  String_ c EmptyString = (EmptyString, None).
Proof. repeat split. Qed.

(** ** Default variants *)




(** ** The string accessor *)

(** C8: the string accessor returns the resolved node when it is a string
    and the empty string otherwise, and in no case an error. *)
Theorem String_lenient (c : JSONConfigContainer) (key : string) :
  (∀ s, getData c key = VStr s → String_ c key = (s, None)) ∧
  ((∀ s, getData c key ≠ VStr s) → String_ c key = (EmptyString, None)) ∧
  (String_ c key).2 = None.
Proof.
  unfold String_. destruct (getData c key) as [| | |s| | |]; simpl;
    repeat split; try done.
  - by intros s' [= ->].
  - intros H. by destruct (H s).
Qed.

Lemma String_lenient_witness :
  String_ (new_container {[ "s" := VStr "v"; "n" := VNum (S754_finite false 1 0) ]}) "s" = ("v", None) ∧
  String_ (new_container {[ "s" := VStr "v"; "n" := VNum (S754_finite false 1 0) ]}) "n" = (EmptyString, None) ∧
  String_ (new_container {[ "s" := VStr "v"; "n" := VNum (S754_finite false 1 0) ]}) "missing" = (EmptyString, None).
Proof.
  split; [|split].
  - apply (proj1 (String_lenient _ "s")). vm_compute. reflexivity.
  - apply (proj1 (proj2 (String_lenient _ "n"))). intros s. vm_compute. discriminate.
  - apply (proj1 (proj2 (String_lenient _ "missing"))). intros s. vm_compute. discriminate.
Defined.

(** ** Stored and absent paths *)

Lemma getData_top_level (c : JSONConfigContainer) (key : string) :
  key ≠ EmptyString → Split_colons key = [key] →
  getData c key = match data c !! key with Some v => v | None => VNil end.
Proof.
  intros Hne Hs. rewrite getData_segments, Hs by done.
  by destruct (data c !! key).
Qed.

Lemma stored_at_walk (m : gmap string value) (segs : list string) (v : value) :
  stored_at m segs v → walk (VMap m) segs = v.
Proof.
  induction 1 as [m seg v Hl|m seg m' rest v Hl _ IH]; simpl; rewrite Hl; done.
Qed.

Lemma absent_at_walk (m : gmap string value) (segs : list string) :
  absent_at m segs → walk (VMap m) segs = VNil.
Proof.
  induction 1 as [m seg rest Hl|m seg m' rest Hl _ IH]; simpl; rewrite Hl; done.
Qed.

Lemma getData_as_walk (c : JSONConfigContainer) (key : string) :
  key ≠ EmptyString → getData c key = walk (VMap (data c)) (Split_colons key).
Proof.
  intros Hne. rewrite getData_segments by done.
  destruct (Split_colons key) as [|first rest] eqn:E.
  - by destruct (Split_colons_nonempty key).
  - simpl. destruct (data c !! first); [done|].
    done.
Qed.

(** A value stored under the path of a non-empty key is what [getData]
    returns for it. *)
Lemma getData_stored (c : JSONConfigContainer) (key : string) (v : value) :
  key ≠ EmptyString → stored_at (data c) (Split_colons key) v → getData c key = v.
Proof. intros Hne H. rewrite getData_as_walk by done. by apply stored_at_walk. Qed.

Lemma getData_absent (c : JSONConfigContainer) (key : string) :
  absent_at (data c) (Split_colons key) → getData c key = VNil.
Proof.
  intros H. destruct (decide (key = EmptyString)) as [->|Hne]; [done|].
  rewrite getData_as_walk by done. by apply absent_at_walk.
Qed.

(** ** [Set] *)





(** The read path still walks: after [Set "a::b"], reading ["a::b"] goes
    through the mapping at ["a"] and does not see the literal entry. *)
Lemma Set_delimited_key_not_read_back :
  ∃ c',
    Set_ (new_container {[ "a" := VMap {[ "b" := VStr "old" ]} ]}) "a::b" "new"
    = Returns (c', None) ∧
    getData c' "a::b" = VStr "old".
Proof. eexists. split; [reflexivity|]. vm_compute. reflexivity. Qed.

(** ** The parser *)

(** C6: [ParseData] decodes the bytes as an object first and uses the
    expanded map as the root; when that fails it decodes them as an array
    and, when this succeeds, stores the sequence under ["rootArray"] in the
    map (which is [{"rootArray": sequence}] when the failed object decode
    left the fresh map empty) and uses the expanded map as the root; when
    both fail it returns the error of the object decode. *)
Theorem ParseData_fallback
    (Unmarshal_map : list Byte.byte → gmap string value → result (gmap string value))
    (Unmarshal_slice : list Byte.byte → result (list value))
    (ExpandValueEnvForMap : gmap string value → gmap string value)
    (bytes : list Byte.byte) (d : gmap string value) (err : option error) :
  let parse := ParseData Unmarshal_map Unmarshal_slice ExpandValueEnvForMap in
  Unmarshal_map bytes ∅ = (d, err) →
  (err = None →
     parse bytes = (Some (new_container (ExpandValueEnvForMap d)), None)) ∧
  (∀ e arr, err = Some e → Unmarshal_slice bytes = (arr, None) →
     parse bytes
     = (Some (new_container (ExpandValueEnvForMap (<["rootArray" := VArr arr]> d))), None) ∧
     (d = ∅ →
      parse bytes
      = (Some (new_container (ExpandValueEnvForMap {[ "rootArray" := VArr arr ]})), None))) ∧
  (∀ e arr e2, err = Some e → Unmarshal_slice bytes = (arr, Some e2) →
     parse bytes = (None, Some e)).
Proof.
  intros parse Hobj. subst parse. unfold ParseData. simpl. rewrite Hobj.
  split; [by intros ->|]. split.
  - intros e arr -> Harr. rewrite Harr. split; [done|].
    intros ->. by rewrite insert_empty.
  - intros e arr e2 -> Harr. by rewrite Harr.
Qed.

Lemma ParseData_fallback_witness :
  ParseData (λ _ m, (m, Some (external_error "cannot unmarshal array")))
            (λ _, ([VStr "a"; VStr "b"], None)) id
            [Byte.x5b; Byte.x5d]
  = (Some (new_container {[ "rootArray" := VArr [VStr "a"; VStr "b"] ]}), None).
Proof.
  destruct (ParseData_fallback
              (λ _ m, (m, Some (external_error "cannot unmarshal array")))
              (λ _, ([VStr "a"; VStr "b"], None)) id
              [Byte.x5b; Byte.x5d] ∅
              (Some (external_error "cannot unmarshal array")) eq_refl)
    as (_ & H & _).
  destruct (H (external_error "cannot unmarshal array") [VStr "a"; VStr "b"]
              eq_refl eq_refl) as [_ H'].
  exact (H' eq_refl).
Defined.

(** ** The integer accessor *)




(** ** A stored null and an absent key *)

(** What the accessors return for a key that does not resolve. *)
Lemma observe_unresolved (ParseBool : value → result bool) (conv : float64 → Z)
    (c : JSONConfigContainer) (key : string) :
  getData c key = VNil →
  observe ParseBool conv c key =
    ((false, Some (fmt_Errorf "not exist key: %q" key)),
     (0, Some (errors_New ("not exist key:" ++ key))),
     (0, Some (errors_New ("not exist key:" ++ key))),
     (S754_zero false, Some (errors_New ("not exist key:" ++ key))),
     (VNil, Some (errors_New "not exist key")),
     (EmptyString, None)).
Proof.
  intros H. unfold observe, Bool, Int, Int64, Float, DIY, String_.
  by rewrite H.
Qed.

(** C10: a key under whose path a JSON null is stored in one container, and
    under whose path nothing exists in another, is read alike by [Bool],
    [Int], [Int64], [Float], the raw accessor and the string accessor: the
    first five return their not-found error, the last the empty string with
    no error. *)
Theorem null_reads_as_absent (ParseBool : value → result bool) (conv : float64 → Z)
    (c_null c_absent : JSONConfigContainer) (key : string) :
  stored_at (data c_null) (Split_colons key) VNil →
  absent_at (data c_absent) (Split_colons key) →
  observe ParseBool conv c_null key = observe ParseBool conv c_absent key ∧
  observe ParseBool conv c_null key =
    ((false, Some (fmt_Errorf "not exist key: %q" key)),
     (0, Some (errors_New ("not exist key:" ++ key))),
     (0, Some (errors_New ("not exist key:" ++ key))),
     (S754_zero false, Some (errors_New ("not exist key:" ++ key))),
     (VNil, Some (errors_New "not exist key")),
     (EmptyString, None)).
Proof.
  intros Hnull Habs.
  assert (H1 : getData c_null key = VNil).
  { destruct (decide (key = EmptyString)) as [->|Hne]; [done|].
    by apply getData_stored. }
  assert (H2 : getData c_absent key = VNil) by by apply getData_absent.
  rewrite !observe_unresolved by done. done.
Qed.

Lemma null_reads_as_absent_witness :
  observe ParseBool_spec (λ _, 0)
    (new_container {[ "a" := VMap {[ "b" := VNil ]} ]}) "a::b"
  = observe ParseBool_spec (λ _, 0)
    (new_container {[ "a" := VMap ∅ ]}) "a::b".
Proof.
  apply (null_reads_as_absent ParseBool_spec (λ _, 0)
           (new_container {[ "a" := VMap {[ "b" := VNil ]} ]})
           (new_container {[ "a" := VMap ∅ ]}) "a::b").
  - apply (stored_under _ "a" {[ "b" := VNil ]}).
    + vm_compute. reflexivity.
    + apply stored_here. vm_compute. reflexivity.
  - apply (absent_under _ "a" ∅).
    + vm_compute. reflexivity.
    + apply absent_here. vm_compute. reflexivity.
Defined.

Lemma null_top_level_example :
  observe ParseBool_spec (λ _, 0) (new_container {[ "k" := VNil ]}) "k"
  = observe ParseBool_spec (λ _, 0) (new_container ∅) "k".
Proof. vm_compute. reflexivity. Qed.

(** ** [Strings] *)

Lemma Split_semi_nonempty (s : string) : Split_semi s ≠ [].
Proof.
  destruct s as [|c s']; simpl; [done|].
  destruct (Ascii.eqb c ";"); [done|]. by destruct (Split_semi s').
Qed.

Lemma join_cons_char (sep : string) (c : ascii) (seg : string) (segs : list string) :
  join sep (String c seg :: segs) = String c (join sep (seg :: segs)).
Proof. by destruct segs. Qed.

(** Joining the pieces with the separator gives the string back. *)
Lemma Split_semi_join (s : string) : join ";" (Split_semi s) = s.
Proof.
  induction s as [|c s' IH]; simpl; [done|].
  destruct (Ascii.eqb_spec c ";") as [->|Hc].
  - destruct (Split_semi s') as [|seg segs] eqn:E.
    + by destruct (Split_semi_nonempty s').
    + by rewrite <- IH.
  - destruct (Split_semi s') as [|seg segs] eqn:E.
    + by destruct (Split_semi_nonempty s').
    + by rewrite join_cons_char, IH.
Qed.

Lemma Split_semi_pieces (s : string) :
  Forall (λ piece, contains_char ";" piece = false) (Split_semi s).
Proof.
  induction s as [|c s' IH]; simpl.
  - by constructor.
  - destruct (Ascii.eqb c ";") eqn:Ec.
    + by constructor.
    + destruct (Split_semi s') as [|seg segs].
      * constructor; [|done]. simpl. by rewrite Ec.
      * inversion IH; subst. constructor; [|done]. simpl. by rewrite Ec.
Qed.

(** X1: [Strings] never reports an error; for a key that resolves to a
    non-empty string it returns a non-empty list of pieces free of [;]
    whose join with [;] is that string, and for every other key the nil
    slice. *)
Theorem Strings_pieces (c : JSONConfigContainer) (key : string) :
  (Strings c key).2 = None ∧
  (∀ s, getData c key = VStr s → s ≠ EmptyString →
     ∃ l, Strings c key = (Some l, None) ∧ l ≠ [] ∧ join ";" l = s ∧
          Forall (λ piece, contains_char ";" piece = false) l) ∧
  ((∀ s, getData c key = VStr s → s = EmptyString) →
     Strings c key = (None, None)).
Proof.
  unfold Strings, String_.
  destruct (getData c key) as [| | |s| | |] eqn:E; simpl; try by repeat split.
  destruct (String.eqb_spec s EmptyString) as [->|Hs]; simpl.
  - repeat split; try done. by intros s' [= <-].
  - repeat split.
    + intros s' [= <-] _. exists (Split_semi s).
      split; [done|]. split; [apply Split_semi_nonempty|].
      split; [apply Split_semi_join | apply Split_semi_pieces].
    + intros H. by destruct Hs, (H s).
Qed.

Lemma Strings_pieces_witness :
  ∃ l, Strings (new_container {[ "list" := VStr "a;b;;c" ]}) "list" = (Some l, None) ∧
       join ";" l = "a;b;;c".
Proof.
  destruct (proj1 (proj2 (Strings_pieces
              (new_container {[ "list" := VStr "a;b;;c" ]}) "list")) "a;b;;c")
    as (l & Hl & _ & Hj & _).
  - vm_compute. reflexivity.
  - discriminate.
  - exists l. split; [exact Hl | exact Hj].
Defined.

(** ** More on [Split_colons] *)

Lemma Split_colons_delim (s : string) :
  Split_colons (String ":" (String ":" s)) = EmptyString :: Split_colons s.
Proof. reflexivity. Qed.

Lemma Split_colons_keep (c : ascii) (s : string) :
  Ascii.eqb c ":" && starts_with ":" s = false →
  Split_colons (String c s) = push_char c (Split_colons s).
Proof.
  intros H. change (Split_colons (String c s)) with
    (if Ascii.eqb c ":" then
       match s with
       | String c' s'' =>
           if Ascii.eqb c' ":" then EmptyString :: Split_colons s''
           else push_char c (Split_colons s)
       | EmptyString => push_char c (Split_colons s)
       end
     else push_char c (Split_colons s)).
  destruct (Ascii.eqb c ":"); [|done].
  destruct s as [|c' s'']; [done|]. simpl in H. by rewrite H.
Qed.






(** ** [Set] and the read path *)









(** ** Sequences of [Set] *)







(** ** [Sub] and the read path *)

Lemma Split_colons_prefixed (section rest : string) :
  contains_char ":" section = false →
  Split_colons (section ++ "::" ++ rest) = section :: Split_colons rest.
Proof.
  induction section as [|ch section' IH]; intros H.
  - apply Split_colons_delim.
  - simpl in H. apply orb_false_iff in H as [Hch Hsec].
    change (String ch section' ++ "::" ++ rest)
      with (String ch (section' ++ "::" ++ rest)).
    rewrite Split_colons_keep by (by rewrite Hch).
    by rewrite IH.
Qed.

(** X9: reading a field through the sub-container of a section is reading
    the key [section::field] through the parent, for a section name without
    a colon that holds a mapping and a non-empty field key: the node is the
    same, so are the results of the raw and the string accessor, and so are
    those of the typed accessors when the node resolves (their not-found
    errors name the key asked for). *)
Theorem Sub_then_get (ParseBool : value → result bool) (conv : float64 → Z)
    (c : JSONConfigContainer) (section field : string) (m : gmap string value) :
  section ≠ EmptyString →
  contains_char ":" section = false →
  field ≠ EmptyString →
  data c !! section = Some (VMap m) →
  ∃ c',
    Sub c section = (Some c', None) ∧
    getData c' field = getData c (section ++ "::" ++ field) ∧
    DIY c' field = DIY c (section ++ "::" ++ field) ∧
    String_ c' field = String_ c (section ++ "::" ++ field) ∧
    (getData c' field ≠ VNil →
     observe ParseBool conv c' field
     = observe ParseBool conv c (section ++ "::" ++ field)).
Proof.
  intros Hsec Hcolon Hfield Hm.
  exists (new_container m).
  split.
  { unfold Sub, sub. rewrite Hm. by destruct (String.eqb_spec section EmptyString). }
  assert (Hg : getData (new_container m) field = getData c (section ++ "::" ++ field)).
  { rewrite (getData_as_walk (new_container m)) by done.
    rewrite getData_segments.
    - by rewrite Split_colons_prefixed, Hm.
    - by destruct section. }
  split; [done|].
  unfold observe, Bool, Int, Int64, Float, DIY, String_. rewrite <- Hg.
  repeat split. intros Hnil. by destruct (getData (new_container m) field).
Qed.

Lemma Sub_then_get_witness :
  ∃ c',
    Sub (new_container {[ "db" := VMap {[ "host" := VStr "h"; "opt" := VMap {[ "x" := VBool true ]} ]} ]}) "db"
    = (Some c', None) ∧
    getData c' "opt::x" = VBool true.
Proof.
  destruct (Sub_then_get ParseBool_spec (λ _, 0)
              (new_container {[ "db" := VMap {[ "host" := VStr "h"; "opt" := VMap {[ "x" := VBool true ]} ]} ]})
              "db" "opt::x" {[ "host" := VStr "h"; "opt" := VMap {[ "x" := VBool true ]} ]})
    as (c' & Hsub & Hg & _).
  - discriminate.
  - reflexivity.
  - discriminate.
  - vm_compute. reflexivity.
  - exists c'. split; [exact Hsub|]. rewrite Hg. vm_compute. reflexivity.
Defined.

(** X10: for a non-empty key without the delimiter, [Sub] returns a
    container over a mapping exactly when the path walk resolves the key to
    that mapping, and fails otherwise. *)
Theorem Sub_agrees_with_getData (c : JSONConfigContainer) (key : string)
    (m : gmap string value) :
  key ≠ EmptyString →
  Split_colons key = [key] →
  (Sub c key = (Some (new_container m), None) ↔ getData c key = VMap m) ∧
  (is_map (getData c key) = false → (Sub c key).1 = None ∧ (Sub c key).2 ≠ None).
Proof.
  intros Hne Hs. rewrite getData_top_level by done.
  unfold Sub, sub. destruct (String.eqb_spec key EmptyString) as [|_]; [done|].
  destruct (data c !! key) as [v|]; [destruct v|]; simpl; split; try done.
  all: try (split; [by intros [=] | by intros [=]]).
  split; [by intros [= ->] | by intros [= ->]].
Qed.

Lemma Sub_agrees_with_getData_witness :
  Sub (new_container {[ "a" := VMap {[ "b" := VStr "1" ]} ]}) "a"
  = (Some (new_container {[ "b" := VStr "1" ]}), None).
Proof.
  apply (Sub_agrees_with_getData _ "a" {[ "b" := VStr "1" ]}).
  - discriminate.
  - reflexivity.
  - vm_compute. reflexivity.
Defined.

(** ** Paths *)

(** X11: a value stored under a path of nested mappings is what [getData]
    returns for the key made of that path, and a path with a missing
    segment along nested mappings resolves to nil. *)
Theorem getData_strict_paths (c : JSONConfigContainer) (key : string) :
  key ≠ EmptyString →
  (∀ v, stored_at (data c) (Split_colons key) v →
     getData c key = v ∧ (v ≠ VNil → DIY c key = (v, None))) ∧
  (absent_at (data c) (Split_colons key) →
     getData c key = VNil ∧ DIY c key = (VNil, Some (errors_New "not exist key"))).
Proof.
  intros Hne. split.
  - intros v Hv. assert (Hg := getData_stored c key v Hne Hv).
    split; [done|]. intros Hnil. unfold DIY. rewrite Hg. by destruct v.
  - intros Ha. assert (Hg := getData_absent c key Ha).
    split; [done|]. unfold DIY. by rewrite Hg.
Qed.

Lemma getData_strict_paths_witness :
  getData (new_container {[ "a" := VMap {[ "b" := VMap {[ "c" := VBool true ]} ]} ]}) "a::b::c"
  = VBool true ∧
  getData (new_container {[ "a" := VMap {[ "b" := VMap {[ "c" := VBool true ]} ]} ]}) "a::x::c"
  = VNil.
Proof.
  split.
  - apply (proj1 (getData_strict_paths _ "a::b::c" ltac:(discriminate))).
    apply (stored_under _ "a" {[ "b" := VMap {[ "c" := VBool true ]} ]});
      [vm_compute; reflexivity|].
    apply (stored_under _ "b" {[ "c" := VBool true ]}); [vm_compute; reflexivity|].
    apply stored_here. vm_compute. reflexivity.
  - apply (proj2 (getData_strict_paths _ "a::x::c" ltac:(discriminate))).
    apply (absent_under _ "a" {[ "b" := VMap {[ "c" := VBool true ]} ]});
      [vm_compute; reflexivity|].
    apply absent_here. vm_compute. reflexivity.
Defined.

(** X12: once a non-empty key resolves to something that is not a mapping
    (a scalar, an array, or nothing), every key that adds segments to it
    resolves to the same thing: arrays are not indexed and a path that is
    not found stays not found. *)
Theorem getData_extension_absorbed (c : JSONConfigContainer) (key key' : string)
    (segs : list string) :
  key ≠ EmptyString →
  Split_colons key' = (Split_colons key ++ segs)%list →
  is_map (getData c key) = false →
  getData c key' = getData c key.
Proof.
  intros Hne Hsplit Hleaf.
  assert (Hne' : key' ≠ EmptyString).
  { intros ->. simpl in Hsplit.
    destruct (Split_colons key) as [|first rest] eqn:E.
    - by destruct (Split_colons_nonempty key).
    - destruct rest; [|done]. simpl in Hsplit.
      injection Hsplit as <- _. by apply Split_colons_single in E. }
  rewrite (getData_as_walk c key') by done.
  rewrite Hsplit, walk_app, <- getData_as_walk by done.
  by apply walk_not_map.
Qed.

Lemma getData_extension_absorbed_witness :
  getData (new_container {[ "rootArray" := VArr [VStr "x"; VStr "y"] ]}) "rootArray::0::z"
  = VArr [VStr "x"; VStr "y"].
Proof.
  rewrite (getData_extension_absorbed _ "rootArray" "rootArray::0::z" ["0"; "z"]).
  - vm_compute. reflexivity.
  - discriminate.
  - reflexivity.
  - vm_compute. reflexivity.
Defined.

(** ** Numeric accessors *)


(** ** Default variants of the string accessors *)



(** ** The parser and the decoder *)

(** X15: [ParseData] returns either a container with a free mutex and no
    error, or no container and the error of the object decode; never both
    and never neither. *)
Theorem ParseData_container_or_error
    (Unmarshal_map : list Byte.byte → gmap string value → result (gmap string value))
    (Unmarshal_slice : list Byte.byte → result (list value))
    (ExpandValueEnvForMap : gmap string value → gmap string value)
    (bytes : list Byte.byte) :
  let r := ParseData Unmarshal_map Unmarshal_slice ExpandValueEnvForMap bytes in
  (∃ c, r = (Some c, None) ∧ mu c = mu_free) ∨
  (∃ e, r = (None, Some e) ∧ (Unmarshal_map bytes ∅).2 = Some e ∧
        (Unmarshal_slice bytes).2 ≠ None).
Proof.
  unfold ParseData. simpl.
  destruct (Unmarshal_map bytes ∅) as [d [e|]]; [|left; by eexists].
  destruct (Unmarshal_slice bytes) as [arr [e2|]]; [|left; by eexists].
  right. by exists e.
Qed.

(** X16: [Unmarshaler] under a prefix decodes what [Sub] of that prefix
    holds (decoding under a prefix is decoding the whole sub-container), and
    when [Sub] fails it returns that error and leaves the target alone. *)
Theorem Unmarshaler_through_Sub (target : Type)
    (Decode : gmap string value → target → target * option error)
    (c : JSONConfigContainer) (prefix : string) (obj : target) :
  (∀ c', Sub c prefix = (Some c', None) →
     Unmarshaler target Decode c prefix obj = Decode (data c') obj ∧
     Unmarshaler target Decode c prefix obj = Unmarshaler target Decode c' EmptyString obj) ∧
  (∀ e, (Sub c prefix).2 = Some e →
     Unmarshaler target Decode c prefix obj = (obj, Some e)).
Proof.
  unfold Unmarshaler, Sub.
  destruct (sub c prefix) as [[m|] [e|]]; simpl; split; try done.
  - by intros e' [= ->].
  - by intros c' [= <-].
  - by intros e' [= ->].
  - by intros c' [= <-].
Qed.

Lemma Unmarshaler_through_Sub_witness :
  Unmarshaler nat (λ m n, (size m, None))
    (new_container {[ "a" := VMap {[ "x" := VNil; "y" := VNil ]}; "n" := VNil ]}) "a" 0%nat
  = (2%nat, None) ∧
  Unmarshaler nat (λ m n, (size m, None))
    (new_container {[ "a" := VMap {[ "x" := VNil; "y" := VNil ]}; "n" := VNil ]}) "n" 0%nat
  = (0%nat, Some (errors_New "the type of value is invalid, key: n")).
Proof.
  pose proof (Unmarshaler_through_Sub nat (λ m n, (size m, None))
                (new_container {[ "a" := VMap {[ "x" := VNil; "y" := VNil ]}; "n" := VNil ]})
                "a" 0%nat) as [Ha _].
  pose proof (Unmarshaler_through_Sub nat (λ m n, (size m, None))
                (new_container {[ "a" := VMap {[ "x" := VNil; "y" := VNil ]}; "n" := VNil ]})
                "n" 0%nat) as [_ Hn].
  split.
  - destruct (Ha (new_container {[ "x" := VNil; "y" := VNil ]})) as [H _].
    + vm_compute. reflexivity.
    + rewrite H. vm_compute. reflexivity.
  - apply Hn. vm_compute. reflexivity.
Defined.

(** X17: for bytes the object decode rejects, leaving the fresh map empty,
    and the array decode accepts, the container [ParseData] returns hands
    the whole array to the raw accessor under ["rootArray"] and under every
    key that adds segments to it, when the expansion of the environment
    leaves that entry as it is. *)
Theorem ParseData_rootArray
    (Unmarshal_map : list Byte.byte → gmap string value → result (gmap string value))
    (Unmarshal_slice : list Byte.byte → result (list value))
    (ExpandValueEnvForMap : gmap string value → gmap string value)
    (bytes : list Byte.byte) (e : error) (arr : list value) :
  Unmarshal_map bytes ∅ = (∅, Some e) →
  Unmarshal_slice bytes = (arr, None) →
  ExpandValueEnvForMap {[ "rootArray" := VArr arr ]} !! "rootArray" = Some (VArr arr) →
  ∃ c,
    ParseData Unmarshal_map Unmarshal_slice ExpandValueEnvForMap bytes = (Some c, None) ∧
    DIY c "rootArray" = (VArr arr, None) ∧
    (∀ key segs, Split_colons key = "rootArray" :: segs →
       DIY c key = (VArr arr, None)).
Proof.
  intros Hobj Harr Hexp. eexists. split.
  { unfold ParseData. simpl. rewrite Hobj, Harr. by rewrite insert_empty. }
  assert (Hk : ∀ key segs, Split_colons key = "rootArray" :: segs →
            getData {| data := ExpandValueEnvForMap {[ "rootArray" := VArr arr ]};
                       mu := mu_free |} key = VArr arr).
  { intros key segs Hs.
    assert (Hne : key ≠ EmptyString) by (by intros ->).
    rewrite getData_segments, Hs by done. simpl. rewrite Hexp.
    by apply walk_not_map. }
  split.
  - unfold DIY. by rewrite (Hk "rootArray" []).
  - intros key segs Hs. unfold DIY. by rewrite (Hk key segs).
Qed.

Lemma ParseData_rootArray_witness :
  ∃ c,
    ParseData (λ _ m, (m, Some (external_error "cannot unmarshal array")))
              (λ _, ([VNum (S754_finite false 1 0); VStr "b"], None)) id
              [Byte.x5b; Byte.x5d] = (Some c, None) ∧
    DIY c "rootArray::0" = (VArr [VNum (S754_finite false 1 0); VStr "b"], None).
Proof.
  destruct (ParseData_rootArray
              (λ _ m, (m, Some (external_error "cannot unmarshal array")))
              (λ _, ([VNum (S754_finite false 1 0); VStr "b"], None)) id
              [Byte.x5b; Byte.x5d] (external_error "cannot unmarshal array")
              [VNum (S754_finite false 1 0); VStr "b"])
    as (c & Hparse & _ & Hk).
  - reflexivity.
  - reflexivity.
  - vm_compute. reflexivity.
  - exists c. split; [exact Hparse|]. apply (Hk "rootArray::0" ["0"]). reflexivity.
Defined.
